(** * pivot_control_messages: DOFPose, DOFBoundaries and PivotController

    A shallow embedding of [include/PivotControlMessages.h].

    The header stores every coordinate in a C++ [double].  The embedding uses
    Rocq's primitive binary64 floats ([PrimFloat.float]) for them, so that the
    arithmetic of [closeTo] (subtraction, multiplication, addition, square
    root, absolute value) and the comparisons of [operator==], [closeTo] and
    [poseInside] are the IEEE-754 round-to-nearest-even operations, with
    signed zeros, infinities and NaN.  Expressions are evaluated operation by
    operation in binary64, left to right as the C++ grammar associates them
    (no fused multiply-add, no extended intermediate precision). *)

From Stdlib Require Import ZArith Bool String Lia.
From Stdlib Require Import QArith Qabs Lqa.
From Stdlib Require Import Ascii.
From Stdlib Require Import Floats.

Set Warnings "-inexact-float".

Local Open Scope float_scope.

(** ** Comparison operators of C++ on [double]

    [PrimFloat] provides [<?], [<=?] and [=?]; the operators [>] and [>=] of
    C++ are the same IEEE predicates with the operands exchanged (each one is
    false as soon as an operand is NaN). *)

Definition gtb (x y : float) : bool := y <? x.
Definition geb (x y : float) : bool := y <=? x.

(** ** struct DOFPose *)

Record DOFPose : Set := mkDOFPose {
  pitch : float;
  yaw : float;
  roll : float;
  transZ : float
}.

(** Default member initialisers: [double pitch = 0; ...]. *)
Definition DOFPose_default : DOFPose := mkDOFPose 0 0 0 0.

(** [bool operator==(const DOFPose& other) const] *)
Definition operator_eq (this other : DOFPose) : bool :=
  (pitch this =? pitch other) &&
  (yaw this =? yaw other) &&
  (roll this =? roll other) &&
  (transZ this =? transZ other).

(** [bool operator!=(const DOFPose& other) const] *)
Definition operator_ne (this other : DOFPose) : bool :=
  negb (operator_eq this other).

(** The two distances computed by [closeTo], named after its locals. *)
Definition rotDist (this other : DOFPose) : float :=
  let diffPitch := pitch this - pitch other in
  let diffYaw := yaw this - yaw other in
  let diffRoll := roll this - roll other in
  sqrt (diffPitch * diffPitch + diffYaw * diffYaw + diffRoll * diffRoll).

Definition transZDist (this other : DOFPose) : float :=
  let diffTransZ := transZ this - transZ other in
  abs diffTransZ.

(** [bool closeTo(DOFPose &other, double rotEpsilon, double transZEpsilon) const] *)
Definition closeTo (this other : DOFPose) (rotEpsilon transZEpsilon : float) : bool :=
  let diffPitch := pitch this - pitch other in
  let diffYaw := yaw this - yaw other in
  let diffRoll := roll this - roll other in
  let diffTransZ := transZ this - transZ other in
  let rotDist := sqrt (diffPitch * diffPitch + diffYaw * diffYaw + diffRoll * diffRoll) in
  let transZDist := abs diffTransZ in
  (rotDist <? rotEpsilon) && (transZDist <? transZEpsilon).

(** ** struct DOFBoundaries *)

Record DOFBoundaries : Set := mkDOFBoundaries {
  pitchMax : float;
  pitchMin : float;
  yawMax : float;
  yawMin : float;
  rollMax : float;
  rollMin : float;
  transZMax : float;
  transZMin : float
}.

Definition DOFBoundaries_default : DOFBoundaries :=
  mkDOFBoundaries 0 0 0 0 0 0 0 0.

(** [bool poseInside(DOFPose pose) const] *)
Definition poseInside (this : DOFBoundaries) (pose : DOFPose) : bool :=
  geb (pitch pose) (pitchMin this) &&
  (pitch pose <=? pitchMax this) &&
  geb (yaw pose) (yawMin this) &&
  (yaw pose <=? yawMax this) &&
  geb (roll pose) (rollMin this) &&
  (roll pose <=? rollMax this) &&
  geb (transZ pose) (transZMin this) &&
  (transZ pose <=? transZMax this).

(** ** Objects in memory

    [closeTo] receives [other] by non-const reference, and [this] and [other]
    may be the same object.  To speak about what a call leaves in memory the
    method bodies are also written over a store of [DOFPose] objects indexed by
    address, in a state monad: a computation takes the store and returns its
    result with the store it leaves. *)

Definition M (S A : Type) : Type := S -> A * S.

Definition ret {S A : Type} (a : A) : M S A := fun s => (a, s).

Definition bind {S A B : Type} (c : M S A) (k : A -> M S B) : M S B :=
  fun s => let (a, s') := c s in k a s'.

Declare Scope monad_scope.
Delimit Scope monad_scope with monad.
Notation "x <- c ;; k" := (bind c (fun x => k))
  (at level 61, c at next level, right associativity) : monad_scope.

Definition addr : Set := nat.
Definition heap : Set := addr -> DOFPose.

(** Reading the member [f] of the object at address [a]. *)
Definition load (a : addr) (f : DOFPose -> float) : M heap float :=
  fun h => (f (h a), h).

(** Replacing the object at address [a] (an assignment through a reference). *)
Definition store (a : addr) (v : DOFPose) : M heap unit :=
  fun h => (tt, fun b => if Nat.eqb a b then v else h b).

(** The body of [closeTo], statement by statement, with [this] and [other]
    as addresses. *)
Definition closeTo_m (this other : addr) (rotEpsilon transZEpsilon : float)
  : M heap bool :=
  (a <- load this pitch ;; b <- load other pitch ;;
   let diffPitch := a - b in
   a <- load this yaw ;; b <- load other yaw ;;
   let diffYaw := a - b in
   a <- load this roll ;; b <- load other roll ;;
   let diffRoll := a - b in
   a <- load this transZ ;; b <- load other transZ ;;
   let diffTransZ := a - b in
   let rotDist := sqrt (diffPitch * diffPitch + diffYaw * diffYaw + diffRoll * diffRoll) in
   let transZDist := abs diffTransZ in
   ret ((rotDist <? rotEpsilon) && (transZDist <? transZEpsilon)))%monad.

(** ** std::stringstream and DOFPose::toString

    The stream is its buffer.  [operator<<] on a string literal appends the
    literal; on a [double] it appends the characters the stream's default
    formatting produces, which the C++ implementation chooses: it is the
    parameter [double_to_string]. *)

Definition stringstream : Set := string.

Definition put_string (ss : stringstream) (s : string) : stringstream :=
  (ss ++ s)%string.

Definition put_double (double_to_string : float -> string)
  (ss : stringstream) (d : float) : stringstream :=
  (ss ++ double_to_string d)%string.

Definition str (ss : stringstream) : string := ss.

(** [std::string toString() const] *)
Definition toString (double_to_string : float -> string) (this : DOFPose) : string :=
  let out := put_double double_to_string in
  let ss : stringstream := EmptyString in
  let ss := out (put_string ss "pitch:") (pitch this) in
  let ss := out (put_string ss " yaw:") (yaw this) in
  let ss := out (put_string ss " roll:") (roll this) in
  let ss := out (put_string ss " transZ:") (transZ this) in
  str ss.

(** ** class PivotController

    The data members of the abstract base class, with their default member
    initialisers, and its one method with a body. *)

Record PivotController : Set := mkPivotController {
  mDofPoseReady : bool;
  mDofBoundariesReady : bool
}.

(** [bool mDofPoseReady = false; bool mDofBoundariesReady = false;] *)
Definition PivotController_new : PivotController :=
  mkPivotController false false.

(** [bool isReady() const] *)
Definition isReady (this : PivotController) : bool :=
  mDofBoundariesReady this && mDofPoseReady this.

(** The same method as a computation over the object it is called on. *)
Definition isReady_m : M PivotController bool :=
  fun this => (mDofBoundariesReady this && mDofPoseReady this, this).

(** The pure virtual member functions: what a concrete controller with state
    [D] has to provide.  An output parameter is passed in and handed back. *)
Class PivotControllerImpl (D : Type) : Type := {
  base : D -> PivotController;
  setTargetDOFPose : DOFPose -> M D bool;
  getCurrentDOFPose : DOFPose -> M D (bool * DOFPose);
  getDOFBoundaries : DOFBoundaries -> M D (bool * DOFBoundaries)
}.

(** ** Classes of [double] values used in the statements *)

(** Some coordinate is NaN. *)
Definition has_nan (p : DOFPose) : bool :=
  is_nan (pitch p) || is_nan (yaw p) || is_nan (roll p) || is_nan (transZ p).

(** Every coordinate is finite (neither NaN nor an infinity), as
    [std::isfinite] decides it. *)
Definition all_finite (p : DOFPose) : bool :=
  is_finite (pitch p) && is_finite (yaw p) && is_finite (roll p) &&
  is_finite (transZ p).

(** The Euclidean norm of three differences, in binary64 arithmetic. *)
Definition norm3 (dPitch dYaw dRoll : float) : float :=
  sqrt (dPitch * dPitch + dYaw * dYaw + dRoll * dRoll).

(** Two doubles that [==] cannot tell apart: the same value, not NaN, or two
    zeros of either sign. *)
Definition same_double (x y : float) : Prop :=
  is_nan x = false /\ (x = y \/ is_zero x = true /\ is_zero y = true).

(** Some bound is NaN. *)
Definition bounds_have_nan (b : DOFBoundaries) : bool :=
  is_nan (pitchMax b) || is_nan (pitchMin b) ||
  is_nan (yawMax b) || is_nan (yawMin b) ||
  is_nan (rollMax b) || is_nan (rollMin b) ||
  is_nan (transZMax b) || is_nan (transZMin b).

(** The string holds no space character. *)
Fixpoint no_space (s : string) : bool :=
  match s with
  | EmptyString => true
  | String c r => negb (Ascii.eqb c " "%char) && no_space r
  end.
(** Every bound is finite. *)
Definition bounds_finite (b : DOFBoundaries) : bool :=
  is_finite (pitchMax b) && is_finite (pitchMin b) &&
  is_finite (yawMax b) && is_finite (yawMin b) &&
  is_finite (rollMax b) && is_finite (rollMin b) &&
  is_finite (transZMax b) && is_finite (transZMin b).

(** ** The tolerance test on exact values

    For comparison with [closeTo]: the test as the specification words it,
    with the Euclidean norm of the exact differences of the coordinates,
    computed on rationals without rounding. *)

(** The number a finite double stands for: [(-1)^s * m * 2^e]. *)
Definition SF2Q (x : spec_float) : option Q :=
  match x with
  | S754_zero _ => Some 0%Q
  | S754_finite s m e => Some (inject_Z (cond_Zopp s (Zpos m)) * Qpower 2 e)%Q
  | S754_infinity _ | S754_nan => None
  end.

Definition exact_value (x : float) : option Q := SF2Q (Prim2SF x).

Definition Qltb (a b : Q) : bool :=
  match (a ?= b)%Q with Lt => true | _ => false end.

(** [sqrt s < e] for a rational [s >= 0], without the square root: [e] is
    positive and [s < e * e]. *)
Definition sqrt_below (s e : Q) : bool := Qltb 0 e && Qltb s (e * e).

(** The exact difference of two finite doubles. *)
Definition exact_diff (x y : float) : option Q :=
  match exact_value x, exact_value y with
  | Some a, Some b => Some (a - b)%Q
  | _, _ => None
  end.

(** Whether the Euclidean norm of the exact (pitch, yaw, roll) differences
    is below [rotEpsilon] and the exact absolute transZ difference is below
    [transZEpsilon]; defined when all ten doubles are finite. *)
Definition euclid_close (p q : DOFPose) (rotEpsilon transZEpsilon : float)
  : option bool :=
  match exact_diff (pitch p) (pitch q), exact_diff (yaw p) (yaw q),
        exact_diff (roll p) (roll q), exact_diff (transZ p) (transZ q),
        exact_value rotEpsilon, exact_value transZEpsilon with
  | Some dPitch, Some dYaw, Some dRoll, Some dTransZ, Some re, Some te =>
      Some (sqrt_below (dPitch * dPitch + dYaw * dYaw + dRoll * dRoll) re &&
            Qltb (Qabs dTransZ) te)
  | _, _, _, _, _, _ => None
  end.

(** ** The order of binary64 values

    [FloatAxioms] specifies every primitive operation by its counterpart on
    [spec_float] (sign, mantissa, exponent).  The comparison of two values
    that are not NaN is the lexicographic comparison of their ranks. *)

Module SF.

Local Open Scope Z_scope.

Definition is_nanSF (x : spec_float) : bool :=
  match x with S754_nan => true | _ => false end.

Definition is_zeroSF (x : spec_float) : bool :=
  match x with S754_zero _ => true | _ => false end.

Definition is_infSF (x : spec_float) : bool :=
  match x with S754_infinity _ => true | _ => false end.

Definition is_finiteSF (x : spec_float) : bool :=
  match x with S754_zero _ | S754_finite _ _ _ => true | _ => false end.

(** NaN, a zero of either sign, or a value with the sign bit clear. *)
Definition nonneg (x : spec_float) : bool :=
  match x with
  | S754_nan | S754_zero _ => true
  | S754_infinity s | S754_finite s _ _ => negb s
  end.

(** NaN or the positive infinity: what an overflowing or undefined distance
    evaluates to. *)
Definition top (x : spec_float) : bool :=
  match x with S754_nan | S754_infinity false => true | _ => false end.

(** The place of a value in the order, as a triple compared
    lexicographically: the class (negative infinity, negative, zero,
    positive, positive infinity), then the exponent, then the mantissa, the
    last two negated for negative values.  NaN is unordered; its rank is
    never read. *)
Definition rank (x : spec_float) : Z * Z * Z :=
  match x with
  | S754_nan => (0, 0, 0)
  | S754_zero _ => (0, 0, 0)
  | S754_infinity true => (-2, 0, 0)
  | S754_infinity false => (2, 0, 0)
  | S754_finite true m e => (-1, - e, - Zpos m)
  | S754_finite false m e => (1, e, Zpos m)
  end.

Definition lex3 (a b : Z * Z * Z) : comparison :=
  let '(a1, a2, a3) := a in
  let '(b1, b2, b3) := b in
  match a1 ?= b1 with
  | Eq => match a2 ?= b2 with
          | Eq => a3 ?= b3
          | c => c
          end
  | c => c
  end.

Definition lt3 (a b : Z * Z * Z) : Prop :=
  fst (fst a) < fst (fst b) \/
  fst (fst a) = fst (fst b) /\
  (snd (fst a) < snd (fst b) \/ snd (fst a) = snd (fst b) /\ snd a < snd b).

End SF.

(** * Properties *)

(** ** Comparison and rounding on [spec_float] *)

Module SFFacts.

Import SF.
Local Open Scope Z_scope.

Section Compare.

Lemma SFcompare_rank x y :
  SFcompare x y =
  if is_nanSF x || is_nanSF y then None else Some (lex3 (rank x) (rank y)).
Proof.
destruct x as [[|]|[|]| |[|] mx ex], y as [[|]|[|]| |[|] my ey]; try reflexivity;
  cbn -[Z.compare Z.opp];
  change (Pos.compare_cont Eq ?a ?b) with (Pos.compare a b).
change (-1 ?= -1) with Eq; cbv iota.
rewrite !Z.compare_opp, (Z.compare_antisym ex ey).
destruct (ex ?= ey); cbn [CompOpp]; try reflexivity.
cbn. now rewrite (Pos.compare_antisym mx my).
Qed.

Lemma lex3_refl a : lex3 a a = Eq.
Proof. destruct a as [[a1 a2] a3]; cbn. now rewrite !Z.compare_refl. Qed.

Lemma lex3_Lt_iff a b : lex3 a b = Lt <-> lt3 a b.
Proof.
unfold lt3. destruct a as [[a1 a2] a3], b as [[b1 b2] b3]; cbn.
destruct (Z.compare_spec a1 b1), (Z.compare_spec a2 b2), (Z.compare_spec a3 b3);
  split; intros; try discriminate; try reflexivity; lia.
Qed.

Lemma lex3_Eq_iff a b : lex3 a b = Eq <-> a = b.
Proof.
destruct a as [[a1 a2] a3], b as [[b1 b2] b3]; cbn.
destruct (Z.compare_spec a1 b1), (Z.compare_spec a2 b2), (Z.compare_spec a3 b3);
  split; intros H'; try discriminate; try reflexivity; try (subst; reflexivity);
  injection H'; lia.
Qed.

Lemma SFltb_true_iff x y :
  SFltb x y = true <->
  is_nanSF x = false /\ is_nanSF y = false /\ lt3 (rank x) (rank y).
Proof.
unfold SFltb. rewrite SFcompare_rank, <- lex3_Lt_iff.
destruct (is_nanSF x), (is_nanSF y); cbn;
  try (split; [discriminate | intros (? & ? & ?); discriminate]).
destruct (lex3 (rank x) (rank y)); intuition discriminate.
Qed.

Lemma SFleb_true_iff x y :
  SFleb x y = true <->
  is_nanSF x = false /\ is_nanSF y = false /\
  (lt3 (rank x) (rank y) \/ rank x = rank y).
Proof.
unfold SFleb. rewrite SFcompare_rank, <- lex3_Lt_iff, <- lex3_Eq_iff.
destruct (is_nanSF x), (is_nanSF y); cbn;
  try (split; [discriminate | intros (? & ? & ?); discriminate]).
destruct (lex3 (rank x) (rank y)); intuition discriminate.
Qed.

Lemma SFeqb_true_iff x y :
  SFeqb x y = true <->
  is_nanSF x = false /\ is_nanSF y = false /\ rank x = rank y.
Proof.
unfold SFeqb. rewrite SFcompare_rank, <- lex3_Eq_iff.
destruct (is_nanSF x), (is_nanSF y); cbn;
  try (split; [discriminate | intros (? & ? & ?); discriminate]).
destruct (lex3 (rank x) (rank y)); intuition discriminate.
Qed.

Ltac triples :=
  repeat match goal with
         | |- context [rank ?x] =>
             let a := fresh "a" in let b := fresh "b" in let c := fresh "c" in
             destruct (rank x) as [[a b] c]
         | H : context [rank ?x] |- _ =>
             let a := fresh "a" in let b := fresh "b" in let c := fresh "c" in
             destruct (rank x) as [[a b] c]
         end;
  unfold lt3 in *; cbn [fst snd] in *.

Lemma SFltb_leb_trans x y z :
  SFltb x y = true -> SFleb y z = true -> SFltb x z = true.
Proof.
rewrite !SFltb_true_iff, SFleb_true_iff.
intros (Hx & _ & Hxy) (_ & Hz & Hyz). repeat split; trivial.
triples. destruct Hyz as [Hyz | Hyz]; [lia | injection Hyz; lia].
Qed.

Lemma SFleb_ltb_trans x y z :
  SFleb x y = true -> SFltb y z = true -> SFltb x z = true.
Proof.
rewrite !SFltb_true_iff, SFleb_true_iff.
intros (Hx & _ & Hxy) (_ & Hz & Hyz). repeat split; trivial.
triples. destruct Hxy as [Hxy | Hxy]; [lia | injection Hxy; lia].
Qed.

Lemma SFleb_trans x y z :
  SFleb x y = true -> SFleb y z = true -> SFleb x z = true.
Proof.
rewrite !SFleb_true_iff.
intros (Hx & _ & Hxy) (_ & Hz & Hyz). repeat split; trivial.
triples. destruct Hxy as [Hxy | Hxy], Hyz as [Hyz | Hyz];
  try injection Hxy; try injection Hyz; intros; subst; (left; lia) || (right; reflexivity).
Qed.

Lemma SFltb_irrefl x : SFltb x x = false.
Proof.
destruct (SFltb x x) eqn:E; trivial.
apply SFltb_true_iff in E. destruct E as (_ & _ & E). triples. lia.
Qed.

Lemma SFeqb_refl x : SFeqb x x = negb (is_nanSF x).
Proof.
unfold SFeqb. rewrite SFcompare_rank, orb_diag, lex3_refl.
now destruct (is_nanSF x).
Qed.

End Compare.

(** The operations at any precision [p] and exponent bound [em]. *)
Section Rounding.

Variables p em : Z.

Lemma SFltb_nonneg_zero x s : nonneg x = true -> SFltb x (S754_zero s) = false.
Proof. now destruct x as [?|[|]| |[|] ? ?]. Qed.

Lemma SFabs_nonneg x : nonneg (SFabs x) = true.
Proof. now destruct x. Qed.

Lemma binary_round_aux_nonneg m e l :
  nonneg (binary_round_aux p em false m e l) = true.
Proof.
unfold binary_round_aux.
destruct (shr_fexp p em m e l) as [mrs' e'].
destruct (shr_fexp p em _ e' loc_Exact) as [mrs'' e''].
destruct (shr_m mrs''); trivial.
now destruct (e'' <=? em - p)%Z.
Qed.

Lemma SFsqrt_nonneg x : nonneg (SFsqrt p em x) = true.
Proof.
destruct x as [s|[|]| |[|] m e]; trivial. unfold SFsqrt.
destruct (SFsqrt_core_binary p em (Zpos m) e) as [[mz ez] lz].
apply binary_round_aux_nonneg.
Qed.

(** Rounding does not look at the sign. *)
Lemma SFabs_binary_round_aux s m e l :
  SFabs (binary_round_aux p em s m e l) = binary_round_aux p em false m e l.
Proof.
unfold binary_round_aux.
destruct (shr_fexp p em m e l) as [mrs' e'].
destruct (shr_fexp p em _ e' loc_Exact) as [mrs'' e''].
destruct (shr_m mrs''); trivial.
now destruct (e'' <=? em - p)%Z.
Qed.

Lemma SFabs_binary_round s m e :
  SFabs (binary_round p em s m e) = binary_round p em false m e.
Proof.
unfold binary_round. destruct (shl_align m e _) as [mz ez].
apply SFabs_binary_round_aux.
Qed.

Lemma SFabs_binary_normalize_opp m e sz :
  SFabs (binary_normalize p em (- m) e sz) = SFabs (binary_normalize p em m e sz).
Proof.
destruct m; cbn [Z.opp binary_normalize]; trivial;
  now rewrite !SFabs_binary_round.
Qed.

(** Exchanging the operands of a subtraction only changes the sign of the
    result. *)
Lemma SFabs_sub_swap x y :
  SFabs (SFsub p em x y) = SFabs (SFsub p em y x).
Proof.
destruct x as [[|]|[|]| |sx mx ex], y as [[|]|[|]| |sy my ey]; trivial.
unfold SFsub. rewrite (Z.min_comm ey ex).
set (a := cond_Zopp sx _). set (b := cond_Zopp sy _).
replace (b - a)%Z with (- (a - b))%Z by lia.
symmetry. apply SFabs_binary_normalize_opp.
Qed.

(** A square only depends on the magnitude of its operand. *)
Lemma SFmul_self_abs x : SFmul p em x x = SFmul p em (SFabs x) (SFabs x).
Proof. destruct x as [[|]|[|]| |[|] m e]; reflexivity. Qed.

Lemma shl_align_same m e : shl_align m e e = (m, e).
Proof. unfold shl_align. now rewrite Z.sub_diag. Qed.

(** Two finite values that compare equal have a zero difference. *)
Lemma SFsub_eq_zero x y :
  is_finiteSF x = true -> SFeqb x y = true -> is_zeroSF (SFsub p em x y) = true.
Proof.
intros Hx Heq. apply SFeqb_true_iff in Heq. destruct Heq as (_ & Hy & Hr).
destruct x as [[|]|[|]| |[|] mx ex], y as [[|]|[|]| |[|] my ey];
  try discriminate; try reflexivity;
  injection Hr; intros Hm He;
  assert (ex = ey) by lia; assert (mx = my) by lia; subst ey my;
  unfold SFsub; rewrite Z.min_id, !shl_align_same; cbn [fst];
  now rewrite Z.sub_diag.
Qed.

(** An infinity compares equal only to itself, and the difference is NaN. *)
Lemma SFsub_eq_nan x y :
  is_finiteSF x = false -> SFeqb x y = true -> SFsub p em x y = S754_nan.
Proof.
intros Hx Heq. apply SFeqb_true_iff in Heq. destruct Heq as (Hnx & Hny & Hr).
destruct x as [sx|[|]| |sx mx ex]; try discriminate;
destruct y as [sy|[|]| |[|] my ey]; try discriminate; reflexivity.
Qed.

Lemma SFadd_nan_r x : SFadd p em x S754_nan = S754_nan.
Proof. now destruct x. Qed.

Lemma SFmul_zero_zero x y :
  is_zeroSF x = true -> is_zeroSF y = true -> is_zeroSF (SFmul p em x y) = true.
Proof. now destruct x, y. Qed.

Lemma SFadd_zero_zero x y :
  is_zeroSF x = true -> is_zeroSF y = true -> is_zeroSF (SFadd p em x y) = true.
Proof. now destruct x as [[|]| | |], y as [[|]| | |]. Qed.

Lemma SFsqrt_zero x : is_zeroSF x = true -> is_zeroSF (SFsqrt p em x) = true.
Proof. now destruct x. Qed.

Lemma SFabs_zero x : is_zeroSF x = true -> is_zeroSF (SFabs x) = true.
Proof. now destruct x. Qed.

Lemma SFltb_zero_l x y :
  is_zeroSF x = true -> SFltb x y = SFltb (S754_zero false) y.
Proof. destruct x; try discriminate. now destruct y. Qed.

End Rounding.

End SFFacts.

(** ** The same facts on primitive floats *)

Module F64.

Import SF SFFacts.

Lemma Prim2SF_zero : Prim2SF 0 = S754_zero false.
Proof. reflexivity. Qed.

Lemma Prim2SF_infinity : Prim2SF infinity = S754_infinity false.
Proof. reflexivity. Qed.

Lemma is_nan_spec x : is_nan x = is_nanSF (Prim2SF x).
Proof.
unfold is_nan. rewrite eqb_spec, SFeqb_refl. apply negb_involutive.
Qed.

Lemma is_infinity_spec x : is_infinity x = is_infSF (Prim2SF x).
Proof.
unfold is_infinity. rewrite eqb_spec, abs_spec, Prim2SF_infinity.
now destruct (Prim2SF x).
Qed.

Lemma is_finite_spec x : is_finite x = is_finiteSF (Prim2SF x).
Proof.
unfold is_finite. rewrite is_nan_spec, is_infinity_spec.
now destruct (Prim2SF x).
Qed.

Lemma eqb_refl x : is_nan x = false -> (x =? x) = true.
Proof. unfold is_nan. now destruct (x =? x). Qed.

Lemma ltb_leb_trans x y z :
  (x <? y) = true -> (y <=? z) = true -> (x <? z) = true.
Proof. rewrite !ltb_spec, leb_spec. apply SFltb_leb_trans. Qed.

Lemma leb_ltb_trans x y z :
  (x <=? y) = true -> (y <? z) = true -> (x <? z) = true.
Proof. rewrite !ltb_spec, leb_spec. apply SFleb_ltb_trans. Qed.

Lemma leb_trans x y z :
  (x <=? y) = true -> (y <=? z) = true -> (x <=? z) = true.
Proof. rewrite !leb_spec. apply SFleb_trans. Qed.

Lemma ltb_irrefl x : (x <? x) = false.
Proof. rewrite ltb_spec. apply SFltb_irrefl. Qed.

(** No value lies between a lower bound and a smaller upper bound. *)
Lemma empty_interval lo hi x :
  gtb lo hi = true -> geb x lo && (x <=? hi) = false.
Proof.
unfold gtb, geb. intros Hlt.
destruct (lo <=? x) eqn:H1, (x <=? hi) eqn:H2; trivial.
pose proof (leb_ltb_trans _ _ _ H2 Hlt) as H3.
pose proof (ltb_leb_trans _ _ _ H3 H1) as H4.
now rewrite ltb_irrefl in H4.
Qed.

Lemma sqrt_ltb_zero x : (sqrt x <? 0) = false.
Proof.
rewrite ltb_spec, sqrt_spec, Prim2SF_zero.
apply SFltb_nonneg_zero, SFsqrt_nonneg.
Qed.

Lemma abs_ltb_zero x : (abs x <? 0) = false.
Proof.
rewrite ltb_spec, abs_spec, Prim2SF_zero.
apply SFltb_nonneg_zero, SFabs_nonneg.
Qed.

(** A value that is not below zero is not below anything at or under zero. *)
Lemma ltb_nonpositive x e : (x <? 0) = false -> (e <=? 0) = true -> (x <? e) = false.
Proof.
intros Hx He. destruct (x <? e) eqn:E; trivial.
now rewrite (ltb_leb_trans _ _ _ E He) in Hx.
Qed.

Lemma abs_sub_swap x y : abs (x - y) = abs (y - x).
Proof.
apply Prim2SF_inj. rewrite !abs_spec, !sub_spec. apply SFabs_sub_swap.
Qed.

Lemma sqr_abs x : x * x = abs x * abs x.
Proof.
apply Prim2SF_inj. rewrite !mul_spec, !abs_spec. apply SFmul_self_abs.
Qed.

Lemma sqr_sub_swap x y : (x - y) * (x - y) = (y - x) * (y - x).
Proof. now rewrite (sqr_abs (x - y)), (sqr_abs (y - x)), (abs_sub_swap x y). Qed.

(** The difference of two finite values that compare equal is a zero. *)
Lemma sub_eqb_zero x y :
  is_finite x = true -> (x =? y) = true -> is_zeroSF (Prim2SF (x - y)) = true.
Proof.
rewrite is_finite_spec, eqb_spec, sub_spec. apply SFsub_eq_zero.
Qed.

(** The difference of two equal values that are not finite is NaN. *)
Lemma sub_eqb_nan x y :
  is_finite x = false -> (x =? y) = true -> x - y = nan.
Proof.
rewrite is_finite_spec, eqb_spec. intros Hx Heq.
apply Prim2SF_inj. rewrite sub_spec. now apply SFsub_eq_nan.
Qed.

Lemma nan_ltb x : (nan <? x) = false.
Proof. now rewrite ltb_spec. Qed.

Lemma abs_nan : abs nan = nan.
Proof. reflexivity. Qed.

Lemma sqr_nan : nan * nan = nan.
Proof. reflexivity. Qed.

Lemma add_nan_l x : nan + x = nan.
Proof. apply Prim2SF_inj. now rewrite add_spec. Qed.

Lemma add_nan_r x : x + nan = nan.
Proof. apply Prim2SF_inj. rewrite add_spec. apply SFadd_nan_r. Qed.

(** NaN in any of the three differences makes the norm NaN. *)
Lemma norm3_nan a b c : a = nan \/ b = nan \/ c = nan -> norm3 a b c = nan.
Proof.
unfold norm3. intros [H | [H | H]]; subst; rewrite sqr_nan.
- now rewrite !add_nan_l.
- now rewrite add_nan_r, add_nan_l.
- now rewrite add_nan_r.
Qed.

Lemma norm3_zero a b c :
  is_zeroSF (Prim2SF a) = true -> is_zeroSF (Prim2SF b) = true ->
  is_zeroSF (Prim2SF c) = true -> is_zeroSF (Prim2SF (norm3 a b c)) = true.
Proof.
intros Ha Hb Hc. unfold norm3.
rewrite sqrt_spec, !add_spec, !mul_spec.
apply SFsqrt_zero, SFadd_zero_zero; [apply SFadd_zero_zero |];
  now apply SFmul_zero_zero.
Qed.

Lemma abs_zero a : is_zeroSF (Prim2SF a) = true -> is_zeroSF (Prim2SF (abs a)) = true.
Proof. rewrite abs_spec. apply SFabs_zero. Qed.

Lemma zero_ltb x e : is_zeroSF (Prim2SF x) = true -> (x <? e) = (0 <? e).
Proof. intros Hx. rewrite !ltb_spec, Prim2SF_zero. now apply SFltb_zero_l. Qed.

End F64.

(** ** DOFPose: exact and tolerance-based comparison *)

Section PoseFacts.

Import SF F64.

Lemma closeTo_unfold p q rotEpsilon transZEpsilon :
  closeTo p q rotEpsilon transZEpsilon =
  (rotDist p q <? rotEpsilon) && (transZDist p q <? transZEpsilon).
Proof. reflexivity. Qed.

Lemma rotDist_norm3 p q :
  rotDist p q = norm3 (pitch p - pitch q) (yaw p - yaw q) (roll p - roll q).
Proof. reflexivity. Qed.

Lemma rotDist_sym p q : rotDist p q = rotDist q p.
Proof.
unfold rotDist; cbv zeta.
now rewrite (sqr_sub_swap (pitch p)), (sqr_sub_swap (yaw p)), (sqr_sub_swap (roll p)).
Qed.

Lemma transZDist_sym p q : transZDist p q = transZDist q p.
Proof. apply abs_sub_swap. Qed.

Lemma rotDist_ltb_zero p q : (rotDist p q <? 0) = false.
Proof. apply sqrt_ltb_zero. Qed.

Lemma transZDist_ltb_zero p q : (transZDist p q <? 0) = false.
Proof. apply abs_ltb_zero. Qed.

Lemma operator_eq_fields p q :
  operator_eq p q = true <->
  (pitch p =? pitch q) = true /\ (yaw p =? yaw q) = true /\
  (roll p =? roll q) = true /\ (transZ p =? transZ q) = true.
Proof. unfold operator_eq. rewrite !andb_true_iff. tauto. Qed.

Lemma has_nan_fields p :
  has_nan p = false <->
  is_nan (pitch p) = false /\ is_nan (yaw p) = false /\
  is_nan (roll p) = false /\ is_nan (transZ p) = false.
Proof. unfold has_nan. rewrite !orb_false_iff. tauto. Qed.

Lemma all_finite_fields p :
  all_finite p = true <->
  is_finite (pitch p) = true /\ is_finite (yaw p) = true /\
  is_finite (roll p) = true /\ is_finite (transZ p) = true.
Proof. unfold all_finite. rewrite !andb_true_iff. tauto. Qed.

Lemma is_finite_not_nan x : is_finite x = true -> is_nan x = false.
Proof. unfold is_finite. now destruct (is_nan x). Qed.

Lemma all_finite_no_nan p : all_finite p = true -> has_nan p = false.
Proof.
rewrite all_finite_fields, has_nan_fields.
intros (H1 & H2 & H3 & H4). auto using is_finite_not_nan.
Qed.

Lemma operator_eq_self p : operator_eq p p = negb (has_nan p).
Proof.
unfold operator_eq, has_nan, is_nan.
now destruct (pitch p =? pitch p), (yaw p =? yaw p), (roll p =? roll p),
  (transZ p =? transZ p).
Qed.

Lemma operator_eq_refl p : has_nan p = false -> operator_eq p p = true.
Proof. intros H. now rewrite operator_eq_self, H. Qed.

(** On finite poses that compare equal, both distances are zero and
    [closeTo] only asks whether the two tolerances are positive. *)
Lemma closeTo_of_operator_eq_finite p q rotEpsilon transZEpsilon :
  all_finite p = true -> operator_eq p q = true ->
  closeTo p q rotEpsilon transZEpsilon = (0 <? rotEpsilon) && (0 <? transZEpsilon).
Proof.
rewrite all_finite_fields, operator_eq_fields.
intros (F1 & F2 & F3 & F4) (E1 & E2 & E3 & E4).
rewrite closeTo_unfold, rotDist_norm3. unfold transZDist; cbv zeta.
rewrite (zero_ltb (norm3 _ _ _)), (zero_ltb (abs _)); trivial.
- now apply abs_zero, sub_eqb_zero.
- apply norm3_zero; now apply sub_eqb_zero.
Qed.

(** On poses that compare equal and have a coordinate that is not finite,
    one of the distances is NaN. *)
Lemma closeTo_of_operator_eq_infinite p q rotEpsilon transZEpsilon :
  all_finite p = false -> operator_eq p q = true ->
  closeTo p q rotEpsilon transZEpsilon = false.
Proof.
unfold all_finite. rewrite !andb_false_iff, operator_eq_fields.
intros F (E1 & E2 & E3 & E4).
rewrite closeTo_unfold, rotDist_norm3. unfold transZDist; cbv zeta.
destruct F as [[[F | F] | F] | F].
- rewrite (sub_eqb_nan _ _ F E1), norm3_nan, nan_ltb; auto.
- rewrite (sub_eqb_nan _ _ F E2), norm3_nan, nan_ltb; auto.
- rewrite (sub_eqb_nan _ _ F E3), norm3_nan, nan_ltb; auto.
- rewrite (sub_eqb_nan _ _ F E4), abs_nan, nan_ltb. apply andb_false_r.
Qed.

(** What [closeTo] returns on two poses that compare equal. *)
Lemma closeTo_of_operator_eq p q rotEpsilon transZEpsilon :
  operator_eq p q = true ->
  closeTo p q rotEpsilon transZEpsilon =
  all_finite p && ((0 <? rotEpsilon) && (0 <? transZEpsilon)).
Proof.
intros Heq. destruct (all_finite p) eqn:F.
- now apply closeTo_of_operator_eq_finite.
- now apply closeTo_of_operator_eq_infinite.
Qed.

(** What [closeTo] returns on a pose and itself. *)
Lemma closeTo_self p rotEpsilon transZEpsilon :
  closeTo p p rotEpsilon transZEpsilon =
  all_finite p && ((0 <? rotEpsilon) && (0 <? transZEpsilon)).
Proof.
destruct (has_nan p) eqn:N.
- assert (F : all_finite p = false).
  { destruct (all_finite p) eqn:F; trivial.
    apply all_finite_no_nan in F. congruence. }
  rewrite F. unfold has_nan, is_nan in N.
  rewrite closeTo_unfold, rotDist_norm3. unfold transZDist; cbv zeta.
  assert (D : forall x, (x =? x) = false -> x - x = nan).
  { intros x Hx. apply Prim2SF_inj. rewrite sub_spec.
    rewrite eqb_spec, SFFacts.SFeqb_refl in Hx.
    now destruct (Prim2SF x). }
  rewrite !orb_true_iff, !negb_true_iff in N.
  destruct N as [[[N | N] | N] | N].
  + rewrite (D _ N), norm3_nan, nan_ltb; auto.
  + rewrite (D _ N), norm3_nan, nan_ltb; auto.
  + rewrite (D _ N), norm3_nan, nan_ltb; auto.
  + rewrite (D _ N), abs_nan, nan_ltb. apply andb_false_r.
- apply closeTo_of_operator_eq. now apply operator_eq_refl.
Qed.

End PoseFacts.

Lemma string_append_assoc (a b c : string) :
  ((a ++ b) ++ c)%string = (a ++ (b ++ c))%string.
Proof. induction a as [|ch a IH]; cbn; [reflexivity | now rewrite IH]. Qed.

(** [sqrt_below] is the comparison of the square root where the root is
    rational. *)
Lemma sqrt_below_root (s r e : Q) :
  (0 <= r)%Q -> (r * r == s)%Q -> sqrt_below s e = Qltb r e.
Proof.
intros Hr Hs. unfold sqrt_below, Qltb.
destruct (Qcompare_spec 0 e), (Qcompare_spec s (e * e)), (Qcompare_spec r e);
  cbn; trivial; exfalso; nra.
Qed.

(** The distances are rounded: the square of a pitch difference of 1e-200
    underflows to zero, so the pair is close for a tolerance that the
    difference itself exceeds. *)
Remark closeTo_underflow :
  let p := mkDOFPose 0 0 0 0 in
  let q := mkDOFPose 1e-200 0 0 0 in
  closeTo p q 1e-201 1 = true /\ (abs (pitch p - pitch q) <? 1e-201) = false.
Proof. split; reflexivity. Qed.

(** ** The store *)

Lemma load_store_same (a : addr) (v : DOFPose) (f : DOFPose -> float) (h : heap) :
  fst (load a f (snd (store a v h))) = f v.
Proof. unfold load, store; cbn. now rewrite Nat.eqb_refl. Qed.

Lemma load_store_other (a b : addr) (v : DOFPose) (f : DOFPose -> float) (h : heap) :
  a <> b -> fst (load b f (snd (store a v h))) = f (h b).
Proof.
intros Hab. unfold load, store; cbn.
apply Nat.eqb_neq in Hab. now rewrite Hab.
Qed.

(** * Specification properties *)

(** C1, as stated, fails when the distance is read as the Euclidean norm of
    the exact differences.  From the zero pose to (1e-200,0,0,0) the norm is
    1e-200, not below [rotEpsilon = 1e-201], yet [closeTo] returns true: the
    square underflows to zero.  To (1e200,0,0,0) the norm is 1e200, below the
    largest finite double, yet [closeTo] returns false: the square overflows
    to infinity.  To (1,1,0,0) the norm is the square root of 2, below the
    double next above it, yet [closeTo] returns false: the computed root is
    rounded up to that double. *)
Lemma closeTo_not_euclidean :
  let o := mkDOFPose 0 0 0 0 in
  (closeTo o (mkDOFPose 1e-200 0 0 0) 1e-201 1 = true /\
   euclid_close o (mkDOFPose 1e-200 0 0 0) 1e-201 1 = Some false) /\
  (closeTo o (mkDOFPose 1e200 0 0 0) 0x1.fffffffffffffp+1023 1 = false /\
   euclid_close o (mkDOFPose 1e200 0 0 0) 0x1.fffffffffffffp+1023 1 = Some true) /\
  (closeTo o (mkDOFPose 1 1 0 0) 0x1.6a09e667f3bcdp+0 1 = false /\
   euclid_close o (mkDOFPose 1 1 0 0) 0x1.6a09e667f3bcdp+0 1 = Some true).
Proof. repeat split; vm_compute; reflexivity. Qed.

(** C1, amended: [p.closeTo(q, rotEpsilon, transZEpsilon)] returns true if
    and only if the distance the method computes in binary64 arithmetic, the
    square root of the sum of the squared (pitch, yaw, roll) differences with
    every subtraction, product, sum and the root rounded to nearest, is
    strictly below [rotEpsilon] and the computed absolute transZ difference
    is strictly below [transZEpsilon]; both must hold.  For the poses
    (0,0,0,0) and (3,4,0,0) no operation rounds and the distance is 5, so the
    call is false with [rotEpsilon = 5.0] and true with [rotEpsilon = 5.0001],
    as the test on exact values is; a pair within the rotational tolerance
    but at transZ distance 2 is rejected with [transZEpsilon = 1]. *)
Theorem closeTo_iff_distances :
  (forall (p q : DOFPose) (rotEpsilon transZEpsilon : float),
     closeTo p q rotEpsilon transZEpsilon = true <->
     (norm3 (pitch p - pitch q) (yaw p - yaw q) (roll p - roll q) <? rotEpsilon) = true /\
     (abs (transZ p - transZ q) <? transZEpsilon) = true) /\
  norm3 (0 - 3) (0 - 4) (0 - 0) = 5 /\
  closeTo (mkDOFPose 0 0 0 0) (mkDOFPose 3 4 0 0) 5.0 1.0 = false /\
  closeTo (mkDOFPose 0 0 0 0) (mkDOFPose 3 4 0 0) 5.0001 1.0 = true /\
  closeTo (mkDOFPose 0 0 0 0) (mkDOFPose 0 0 0 2) 1.0 1.0 = false /\
  euclid_close (mkDOFPose 0 0 0 0) (mkDOFPose 3 4 0 0) 5.0 1.0 = Some false /\
  euclid_close (mkDOFPose 0 0 0 0) (mkDOFPose 3 4 0 0) 5.0001 1.0 = Some true.
Proof.
split; [| repeat split; vm_compute; reflexivity].
intros p q rotEpsilon transZEpsilon.
unfold closeTo, norm3; cbv zeta. apply andb_true_iff.
Qed.

(** C2: [b.poseInside(p)] returns true if and only if on each of the four
    axes the coordinate of [p] lies between the minimum and the maximum of
    [b], both bounds included.  With pitch bounds -1 and 1 and all other
    bounds 0, the pose (1,0,0,0) is inside and (1.0001,0,0,0) is not. *)
Theorem poseInside_iff_axes :
  (forall (b : DOFBoundaries) (p : DOFPose),
     poseInside b p = true <->
     ((pitchMin b <=? pitch p) = true /\ (pitch p <=? pitchMax b) = true) /\
     ((yawMin b <=? yaw p) = true /\ (yaw p <=? yawMax b) = true) /\
     ((rollMin b <=? roll p) = true /\ (roll p <=? rollMax b) = true) /\
     ((transZMin b <=? transZ p) = true /\ (transZ p <=? transZMax b) = true)) /\
  (let b := {| pitchMax := 1; pitchMin := -1; yawMax := 0; yawMin := 0;
               rollMax := 0; rollMin := 0; transZMax := 0; transZMin := 0 |} in
   poseInside b (mkDOFPose 1 0 0 0) = true /\
   poseInside b (mkDOFPose (-1) 0 0 0) = true /\
   poseInside b (mkDOFPose 1.0001 0 0 0) = false).
Proof.
split; [| repeat split; reflexivity].
intros b p. unfold poseInside, geb. rewrite !andb_true_iff. tauto.
Qed.

(** C3: [isReady()] returns the conjunction of the two readiness flags (the
    four rows of its truth table), both flags are false on a newly
    constructed controller, so [isReady()] is false there, and a call leaves
    the controller as it was. *)
Theorem isReady_conjunction :
  (forall c : PivotController,
     isReady c = mDofPoseReady c && mDofBoundariesReady c) /\
  isReady (mkPivotController false false) = false /\
  isReady (mkPivotController true false) = false /\
  isReady (mkPivotController false true) = false /\
  isReady (mkPivotController true true) = true /\
  mDofPoseReady PivotController_new = false /\
  mDofBoundariesReady PivotController_new = false /\
  isReady PivotController_new = false /\
  (forall c : PivotController, isReady_m c = (isReady c, c)).
Proof.
repeat split.
intros [pose_ready boundaries_ready]. apply andb_comm.
Qed.

(** C4: when the minimum exceeds the maximum on at least one axis,
    [poseInside] returns false for every pose. *)
Theorem poseInside_degenerate (b : DOFBoundaries) (p : DOFPose) :
  gtb (pitchMin b) (pitchMax b) = true \/
  gtb (yawMin b) (yawMax b) = true \/
  gtb (rollMin b) (rollMax b) = true \/
  gtb (transZMin b) (transZMax b) = true ->
  poseInside b p = false.
Proof.
intros H. unfold poseInside.
apply not_true_is_false. rewrite !andb_true_iff.
intros (((((((H1 & H2) & H3) & H4) & H5) & H6) & H7) & H8).
destruct H as [H | [H | [H | H]]].
- apply F64.empty_interval with (x := pitch p) in H. now rewrite H1, H2 in H.
- apply F64.empty_interval with (x := yaw p) in H. now rewrite H3, H4 in H.
- apply F64.empty_interval with (x := roll p) in H. now rewrite H5, H6 in H.
- apply F64.empty_interval with (x := transZ p) in H. now rewrite H7, H8 in H.
Qed.

(** The boundaries with pitch range from 1 down to -1 contain no pose, the
    zero pose for one. *)
Lemma poseInside_degenerate_witness :
  let b := {| pitchMax := -1; pitchMin := 1; yawMax := 0; yawMin := 0;
              rollMax := 0; rollMin := 0; transZMax := 0; transZMin := 0 |} in
  gtb (pitchMin b) (pitchMax b) = true /\ poseInside b (mkDOFPose 0 0 0 0) = false.
Proof.
intros b. split; [reflexivity |].
apply (poseInside_degenerate b (mkDOFPose 0 0 0 0)). left. reflexivity.
Defined.

(** C5: when [rotEpsilon <= 0] or [transZEpsilon <= 0], [closeTo] returns
    false: neither distance is below zero and the comparisons are strict. *)
Theorem closeTo_nonpositive_epsilon (p q : DOFPose) (rotEpsilon transZEpsilon : float) :
  (rotEpsilon <=? 0) = true \/ (transZEpsilon <=? 0) = true ->
  closeTo p q rotEpsilon transZEpsilon = false /\
  (rotDist p q <? 0) = false /\ (transZDist p q <? 0) = false.
Proof.
intros H. pose proof (rotDist_ltb_zero p q) as Hr.
pose proof (transZDist_ltb_zero p q) as Ht.
repeat split; trivial.
rewrite closeTo_unfold. apply andb_false_iff.
destruct H as [H | H]; [left | right]; now apply F64.ltb_nonpositive.
Qed.

(** With [rotEpsilon = 0] the zero pose is not close to itself. *)
Lemma closeTo_nonpositive_epsilon_witness :
  (0 <=? 0) = true /\
  closeTo (mkDOFPose 0 0 0 0) (mkDOFPose 0 0 0 0) 0 1 = false.
Proof.
split; [reflexivity |].
apply (closeTo_nonpositive_epsilon (mkDOFPose 0 0 0 0) (mkDOFPose 0 0 0 0) 0 1).
left. reflexivity.
Defined.

(** C6: [closeTo] is symmetric in the two poses. *)
Theorem closeTo_symmetric (p q : DOFPose) (rotEpsilon transZEpsilon : float) :
  closeTo p q rotEpsilon transZEpsilon = closeTo q p rotEpsilon transZEpsilon.
Proof.
now rewrite !closeTo_unfold, (rotDist_sym p q), (transZDist_sym p q).
Qed.

(** C7, as stated, fails on a pose with a NaN coordinate: it is not equal to
    itself, it differs from itself, and it is not close to itself. *)
Lemma reflexivity_fails_on_nan :
  let p := mkDOFPose nan 0 0 0 in
  operator_eq p p = false /\ operator_ne p p = true /\ closeTo p p 1 1 = false.
Proof. repeat split; reflexivity. Qed.

(** A pose with an infinite coordinate is equal to itself but not close to
    itself, whatever the tolerances. *)
Lemma closeTo_irreflexive_at_infinity (rotEpsilon transZEpsilon : float) :
  let p := mkDOFPose infinity 0 0 0 in
  operator_eq p p = true /\ closeTo p p rotEpsilon transZEpsilon = false.
Proof.
split; [reflexivity |].
rewrite closeTo_unfold.
change (rotDist (mkDOFPose infinity 0 0 0) (mkDOFPose infinity 0 0 0)) with nan.
now rewrite F64.nan_ltb.
Qed.

(** C7, amended: [operator!=] is the negation of [operator==] on all poses;
    a pose without a NaN coordinate is equal to itself, and two poses with
    identical fields, none of them NaN, are equal and not different; a pose
    whose coordinates are all finite is close to itself for every
    [rotEpsilon > 0] and [transZEpsilon > 0]. *)
Theorem exact_compare_reflexive :
  (forall p q : DOFPose, operator_ne p q = negb (operator_eq p q)) /\
  (forall p : DOFPose, has_nan p = false -> operator_eq p p = true) /\
  (forall p q : DOFPose,
     has_nan p = false ->
     pitch p = pitch q -> yaw p = yaw q -> roll p = roll q -> transZ p = transZ q ->
     operator_eq p q = true /\ operator_ne p q = false) /\
  (forall (p : DOFPose) (rotEpsilon transZEpsilon : float),
     all_finite p = true ->
     gtb rotEpsilon 0 = true -> gtb transZEpsilon 0 = true ->
     closeTo p p rotEpsilon transZEpsilon = true).
Proof.
split; [reflexivity |]. split; [exact operator_eq_refl |]. split.
- intros p [q1 q2 q3 q4] Hp E1 E2 E3 E4; cbn in E1, E2, E3, E4.
  assert (Hq : p = mkDOFPose q1 q2 q3 q4) by (destruct p; cbn in *; congruence).
  subst p. unfold operator_ne. now rewrite operator_eq_refl.
- intros p rotEpsilon transZEpsilon Hp Hr Ht. unfold gtb in Hr, Ht.
  now rewrite closeTo_self, Hp, Hr, Ht.
Qed.

(** The pose of the formatting example, compared with itself. *)
Lemma exact_compare_reflexive_witness :
  let p := mkDOFPose 1.5 (-2) 0 3.25 in
  has_nan p = false /\ all_finite p = true /\
  operator_eq p p = true /\ operator_ne p p = false /\
  closeTo p p 0.001 0.001 = true.
Proof.
intros p.
destruct exact_compare_reflexive as (Hne & Hrefl & Hsame & Hclose).
split; [reflexivity |]. split; [reflexivity |].
split; [apply Hrefl; reflexivity |].
split; [apply (Hsame p p); reflexivity |].
apply Hclose; reflexivity.
Defined.

(** C8: [toString()] renders the four fields in the order pitch, yaw, roll,
    transZ, each after its label, the labels separated from the previous
    value by one space; how a value is rendered is left to the stream. *)
Theorem toString_format (double_to_string : float -> string) (p : DOFPose) :
  toString double_to_string p =
  ("pitch:" ++ double_to_string (pitch p) ++
   " yaw:" ++ double_to_string (yaw p) ++
   " roll:" ++ double_to_string (roll p) ++
   " transZ:" ++ double_to_string (transZ p))%string.
Proof.
unfold toString, str, put_double, put_string; cbv zeta.
rewrite !string_append_assoc. reflexivity.
Qed.

(** C9: a call of [closeTo] returns what the method computes from the two
    objects and leaves the store, hence all four fields of both poses, as it
    found them, also when [this] and [other] are the same object. *)
Theorem closeTo_frame (h : heap) (this other : addr) (rotEpsilon transZEpsilon : float) :
  closeTo_m this other rotEpsilon transZEpsilon h =
  (closeTo (h this) (h other) rotEpsilon transZEpsilon, h).
Proof. reflexivity. Qed.

(** C10, as stated, fails on poses with an infinite coordinate: they compare
    equal, but the difference of the two infinities is NaN and the pose is
    not close to itself. *)
Lemma operator_eq_not_closeTo_at_infinity :
  let p := mkDOFPose infinity 0 0 0 in
  let q := mkDOFPose infinity 0 0 0 in
  gtb 1 0 = true /\ operator_eq p q = true /\ closeTo p q 1 1 = false.
Proof. repeat split; reflexivity. Qed.

(** C10, amended: for poses whose coordinates are all finite, exact equality
    implies closeness for every [rotEpsilon > 0] and [transZEpsilon > 0]. *)
Theorem operator_eq_implies_closeTo (p q : DOFPose) (rotEpsilon transZEpsilon : float) :
  all_finite p = true ->
  operator_eq p q = true ->
  gtb rotEpsilon 0 = true -> gtb transZEpsilon 0 = true ->
  closeTo p q rotEpsilon transZEpsilon = true.
Proof.
intros Hp Heq Hr Ht. unfold gtb in Hr, Ht.
now rewrite (closeTo_of_operator_eq p q), Hp, Hr, Ht.
Qed.

(** Two poses that differ in the sign of a zero pitch compare equal and are
    close. *)
Lemma operator_eq_implies_closeTo_witness :
  let p := mkDOFPose 0 1.5 (-2) 3.25 in
  let q := mkDOFPose (-0) 1.5 (-2) 3.25 in
  all_finite p = true /\ operator_eq p q = true /\ closeTo p q 0.001 0.001 = true.
Proof.
intros p q. split; [reflexivity |]. split; [reflexivity |].
apply (operator_eq_implies_closeTo p q 0.001 0.001); reflexivity.
Defined.

(** * Further properties of the comparisons *)

(** ** Equality and order on [spec_float] *)

Module SFEquiv.

Import SF SFFacts.
Local Open Scope Z_scope.

Lemma SFeqb_sym x y : SFeqb x y = SFeqb y x.
Proof.
apply eq_true_iff_eq. rewrite !SFeqb_true_iff. intuition congruence.
Qed.

Lemma SFeqb_trans x y z :
  SFeqb x y = true -> SFeqb y z = true -> SFeqb x z = true.
Proof.
rewrite !SFeqb_true_iff. intros (Hx & _ & Hxy) (_ & Hz & Hyz).
repeat split; congruence.
Qed.

(** Values that compare equal compare alike with every third value. *)
Lemma SFcompare_eqb_l x x' y :
  SFeqb x x' = true -> SFcompare x y = SFcompare x' y.
Proof.
rewrite SFeqb_true_iff, !SFcompare_rank. intros (Hx & Hx' & Hr).
now rewrite Hx, Hx', Hr.
Qed.

Lemma SFcompare_eqb_r x y y' :
  SFeqb y y' = true -> SFcompare x y = SFcompare x y'.
Proof.
rewrite SFeqb_true_iff, !SFcompare_rank. intros (Hy & Hy' & Hr).
now rewrite Hy, Hy', Hr.
Qed.

Lemma SFleb_refl x : SFleb x x = negb (is_nanSF x).
Proof.
unfold SFleb. rewrite SFcompare_rank, orb_diag, lex3_refl.
now destruct (is_nanSF x).
Qed.

Lemma SFleb_antisym x y : SFleb x y && SFleb y x = SFeqb x y.
Proof.
apply eq_true_iff_eq.
rewrite andb_true_iff, !SFleb_true_iff, SFeqb_true_iff.
split.
- intros ((Hx & Hy & H1) & (_ & _ & H2)). repeat split; trivial.
  destruct H1 as [H1 | H1]; trivial. destruct H2 as [H2 | H2]; [| congruence].
  exfalso. destruct (rank x) as [[a1 a2] a3], (rank y) as [[b1 b2] b3].
  unfold lt3 in *; cbn [fst snd] in *. lia.
- intros (Hx & Hy & Hr). rewrite Hr. intuition.
Qed.

(** Two values compare equal only when they are the same value or two
    zeros. *)
Lemma SFeqb_cases x y :
  SFeqb x y = true -> x = y \/ is_zeroSF x = true /\ is_zeroSF y = true.
Proof.
rewrite SFeqb_true_iff. intros (Hx & Hy & Hr).
destruct x as [sx|[|]| |[|] mx ex], y as [sy|[|]| |[|] my ey];
  try discriminate; auto;
  left; injection Hr; intros Hm He;
  assert (ex = ey) by lia; assert (mx = my) by lia; now subst.
Qed.

Section Sub.

Variables p em : Z.

Lemma SFsub_nan_r x : SFsub p em x S754_nan = S754_nan.
Proof. now destruct x. Qed.

(** The magnitude of a difference does not depend on the sign of a zero
    operand. *)
Lemma SFabs_sub_eqb_l x x' y :
  SFeqb x x' = true -> SFabs (SFsub p em x y) = SFabs (SFsub p em x' y).
Proof.
intros H. destruct (SFeqb_cases _ _ H) as [-> | [Hx Hx']]; trivial.
destruct x as [[|]| | |]; try discriminate;
  destruct x' as [[|]| | |]; try discriminate;
  now destruct y as [[|]|[|]| |[|] my ey].
Qed.

Lemma SFabs_sub_eqb x x' y y' :
  SFeqb x x' = true -> SFeqb y y' = true ->
  SFabs (SFsub p em x y) = SFabs (SFsub p em x' y').
Proof.
intros Hx Hy. rewrite (SFabs_sub_eqb_l x x' y Hx).
rewrite (SFabs_sub_swap p em x' y), (SFabs_sub_swap p em x' y').
now apply SFabs_sub_eqb_l.
Qed.

End Sub.

End SFEquiv.

(** ** The same facts on primitive floats *)

Module F64Equiv.

Import SF SFFacts SFEquiv F64.

Lemma eqb_sym x y : (x =? y) = (y =? x).
Proof. rewrite !eqb_spec. apply SFeqb_sym. Qed.

Lemma eqb_trans x y z : (x =? y) = true -> (y =? z) = true -> (x =? z) = true.
Proof. rewrite !eqb_spec. apply SFeqb_trans. Qed.

Lemma leb_eqb_l x x' y : (x =? x') = true -> (x <=? y) = (x' <=? y).
Proof.
rewrite eqb_spec, !leb_spec. intros H. unfold SFleb.
now rewrite (SFcompare_eqb_l _ _ _ H).
Qed.

Lemma leb_eqb_r x y y' : (y =? y') = true -> (x <=? y) = (x <=? y').
Proof.
rewrite eqb_spec, !leb_spec. intros H. unfold SFleb.
now rewrite (SFcompare_eqb_r _ _ _ H).
Qed.

Lemma leb_refl x : (x <=? x) = negb (is_nan x).
Proof. rewrite leb_spec, is_nan_spec. apply SFleb_refl. Qed.

Lemma leb_antisym x y : (x <=? y) && (y <=? x) = (x =? y).
Proof. rewrite !leb_spec, eqb_spec. apply SFleb_antisym. Qed.

Lemma leb_not_nan x y : (x <=? y) = true -> is_nan x = false /\ is_nan y = false.
Proof.
rewrite leb_spec, !is_nan_spec, SFleb_true_iff. tauto.
Qed.

Lemma is_zero_spec x : is_zero x = is_zeroSF (Prim2SF x).
Proof.
unfold is_zero. rewrite eqb_spec.
change (Prim2SF zero) with (S754_zero false).
now destruct (Prim2SF x) as [[|]|[|]| |[|] m e].
Qed.

(** [==] on doubles identifies a value with itself, unless it is NaN, and
    the two zeros with each other; nothing else. *)
Lemma eqb_true_iff x y :
  (x =? y) = true <->
  is_nan x = false /\ (x = y \/ is_zero x = true /\ is_zero y = true).
Proof.
split.
- intros H. split.
  + rewrite is_nan_spec. rewrite eqb_spec, SFeqb_true_iff in H. tauto.
  + rewrite eqb_spec in H. rewrite !is_zero_spec.
    destruct (SFeqb_cases _ _ H) as [E | E]; [left | now right].
    now apply Prim2SF_inj.
- intros (Hn & [E | [Hx Hy]]).
  + subst y. now apply eqb_refl.
  + unfold is_zero in Hx, Hy. rewrite (eqb_sym y) in Hy.
    exact (eqb_trans _ _ _ Hx Hy).
Qed.

Lemma abs_sub_eqb x x' y y' :
  (x =? x') = true -> (y =? y') = true -> abs (x - y) = abs (x' - y').
Proof.
rewrite !eqb_spec. intros Hx Hy. apply Prim2SF_inj.
rewrite !abs_spec, !sub_spec. now apply SFabs_sub_eqb.
Qed.

Lemma sqr_sub_eqb x x' y y' :
  (x =? x') = true -> (y =? y') = true ->
  (x - y) * (x - y) = (x' - y') * (x' - y').
Proof.
intros Hx Hy.
now rewrite (sqr_abs (x - y)), (sqr_abs (x' - y')), (abs_sub_eqb x x' y y').
Qed.

End F64Equiv.

(** ** Overflow and totality *)

Module SFTop.

Import SF SFFacts.
Local Open Scope Z_scope.

Lemma lex3_antisym a b : lex3 b a = CompOpp (lex3 a b).
Proof.
destruct a as [[a1 a2] a3], b as [[b1 b2] b3]; cbn.
rewrite (Z.compare_antisym a1 b1), (Z.compare_antisym a2 b2), (Z.compare_antisym a3 b3).
destruct (a1 ?= b1), (a2 ?= b2), (a3 ?= b3); reflexivity.
Qed.

(** On values that are not NaN the order is total. *)
Lemma SFltb_negb_leb x y :
  is_nanSF x = false -> is_nanSF y = false -> SFltb y x = negb (SFleb x y).
Proof.
intros Hx Hy. unfold SFltb, SFleb.
rewrite !SFcompare_rank, Hx, Hy, (lex3_antisym (rank x) (rank y)); cbn.
now destruct (lex3 (rank x) (rank y)).
Qed.

Lemma SFltb_top x y : top x = true -> SFltb x y = false.
Proof.
destruct x as [?|[|]| |]; try discriminate; intros _; trivial.
now destruct y as [?|[|]| |].
Qed.

Lemma SFabs_top x : is_finiteSF x = false -> top (SFabs x) = true.
Proof. now destruct x. Qed.

(** Between two finite bounds there are only finite values. *)
Lemma SFleb_between_finite a x b :
  is_finiteSF a = true -> is_finiteSF b = true ->
  SFleb a x = true -> SFleb x b = true -> is_finiteSF x = true.
Proof.
destruct x as [?|[|]| |]; trivial;
  destruct a as [?|?| |[|] ? ?]; try discriminate;
  destruct b as [?|?| |[|] ? ?]; discriminate.
Qed.

Section Ops.

Variables p em : Z.

Lemma SFsub_not_finite x y :
  is_finiteSF x && is_finiteSF y = false -> is_finiteSF (SFsub p em x y) = false.
Proof.
destruct x as [[|]|[|]| |sx mx ex], y as [[|]|[|]| |sy my ey];
  try discriminate; reflexivity.
Qed.

Lemma SFmul_self_top x : is_finiteSF x = false -> top (SFmul p em x x) = true.
Proof. now destruct x as [?|[|]| |]. Qed.

Lemma SFadd_top_l x y : top x = true -> top (SFadd p em x y) = true.
Proof.
destruct x as [?|[|]| |]; try discriminate; intros _; trivial.
now destruct y as [?|[|]| |[|] ? ?].
Qed.

Lemma SFadd_top_r x y : top y = true -> top (SFadd p em x y) = true.
Proof.
destruct y as [?|[|]| |]; try discriminate; intros _.
- now destruct x as [?|[|]| |[|] ? ?].
- now destruct x.
Qed.

Lemma SFsqrt_top x : top x = true -> top (SFsqrt p em x) = true.
Proof. now destruct x as [?|[|]| |]. Qed.

End Ops.

End SFTop.

Module F64Top.

Import SF SFFacts SFTop F64.

(** A difference with an operand that is not finite is not finite. *)
Lemma sub_not_finite x y :
  is_finite x && is_finite y = false -> is_finite (x - y) = false.
Proof. rewrite !is_finite_spec, sub_spec. apply SFsub_not_finite. Qed.

(** The norm of three differences, one of them not finite, is below no
    bound. *)
Lemma norm3_not_finite a b c e :
  is_finite a && is_finite b && is_finite c = false -> (norm3 a b c <? e) = false.
Proof.
rewrite !is_finite_spec, !andb_false_iff. intros H.
unfold norm3. rewrite ltb_spec, sqrt_spec, !add_spec, !mul_spec.
apply SFltb_top, SFsqrt_top.
destruct H as [[H | H] | H].
- now apply SFadd_top_l, SFadd_top_l, SFmul_self_top.
- now apply SFadd_top_l, SFadd_top_r, SFmul_self_top.
- now apply SFadd_top_r, SFmul_self_top.
Qed.

Lemma abs_not_finite a e : is_finite a = false -> (abs a <? e) = false.
Proof.
rewrite is_finite_spec, ltb_spec, abs_spec. intros H.
now apply SFltb_top, SFabs_top.
Qed.

(** A bound that some value not below zero lies strictly under is above
    zero. *)
Lemma ltb_positive x e : (x <? 0) = false -> (x <? e) = true -> (0 <? e) = true.
Proof.
intros Hx He.
assert (Hle : (e <=? 0) = false).
{ destruct (e <=? 0) eqn:E; trivial.
  now rewrite (ltb_nonpositive x e Hx E) in He. }
rewrite ltb_spec in He. apply SFltb_true_iff in He. destruct He as (_ & Hn & _).
rewrite ltb_spec, Prim2SF_zero. rewrite leb_spec, Prim2SF_zero in Hle.
rewrite SFltb_negb_leb; trivial. now rewrite Hle.
Qed.

Lemma leb_between_finite a x b :
  is_finite a = true -> is_finite b = true ->
  (a <=? x) = true -> (x <=? b) = true -> is_finite x = true.
Proof. rewrite !is_finite_spec, !leb_spec. apply SFleb_between_finite. Qed.

End F64Top.

(** * Further properties of the poses and boundaries *)

Section MoreFacts.

Import SF F64 F64Equiv.

Lemma poseInside_fields b p :
  poseInside b p = true <->
  ((pitchMin b <=? pitch p) = true /\ (pitch p <=? pitchMax b) = true) /\
  ((yawMin b <=? yaw p) = true /\ (yaw p <=? yawMax b) = true) /\
  ((rollMin b <=? roll p) = true /\ (roll p <=? rollMax b) = true) /\
  ((transZMin b <=? transZ p) = true /\ (transZ p <=? transZMax b) = true).
Proof. unfold poseInside, geb. rewrite !andb_true_iff. tauto. Qed.

Lemma leb_pair_eqb x y :
  (y <=? x) = true /\ (x <=? y) = true <-> (x =? y) = true.
Proof. rewrite <- andb_true_iff, andb_comm. now rewrite leb_antisym. Qed.

Lemma split_at_space (a a' r r' : string) :
  no_space a = true -> no_space a' = true ->
  (a ++ String " "%char r)%string = (a' ++ String " "%char r')%string ->
  a = a' /\ r = r'.
Proof.
revert a'. induction a as [|c a IH]; intros [|c' a'] Ha Ha' E; cbn in *.
- injection E as E. now split.
- injection E as Ec E. subst c'. discriminate.
- injection E as Ec E. subst c. discriminate.
- injection E as Ec E. subst c'.
  apply andb_true_iff in Ha, Ha'.
  destruct (IH a') as [E1 E2]; try tauto. now subst.
Qed.

End MoreFacts.

(** * Further specification properties *)

(** X1: [operator==] and [operator!=] do not depend on the order of the two
    poses. *)
Theorem operator_eq_symmetric (p q : DOFPose) :
  operator_eq p q = operator_eq q p /\ operator_ne p q = operator_ne q p.
Proof.
assert (H : operator_eq p q = operator_eq q p).
{ unfold operator_eq.
  now rewrite (F64Equiv.eqb_sym (pitch p)), (F64Equiv.eqb_sym (yaw p)),
    (F64Equiv.eqb_sym (roll p)), (F64Equiv.eqb_sym (transZ p)). }
split; trivial. unfold operator_ne. now rewrite H.
Qed.

(** X2: [operator==] is transitive. *)
Theorem operator_eq_transitive (p q r : DOFPose) :
  operator_eq p q = true -> operator_eq q r = true -> operator_eq p r = true.
Proof.
rewrite !operator_eq_fields.
intros (A1 & A2 & A3 & A4) (B1 & B2 & B3 & B4).
repeat split; eapply F64Equiv.eqb_trans; eassumption.
Qed.

(** Three poses that differ only in the signs of their zeros. *)
Lemma operator_eq_transitive_witness :
  let p := mkDOFPose 0 1 2 3 in
  let q := mkDOFPose (-0) 1 2 3 in
  let r := mkDOFPose 0 1 2 3 in
  operator_eq p q = true /\ operator_eq q r = true /\ operator_eq p r = true.
Proof.
intros p q r. split; [reflexivity |]. split; [reflexivity |].
apply (operator_eq_transitive p q r); reflexivity.
Defined.

(** X3: [operator==] returns true exactly when, field by field, the two
    doubles are the same value and not NaN, or are two zeros (the sign of a
    zero is not compared). *)
Theorem operator_eq_iff_same_fields (p q : DOFPose) :
  operator_eq p q = true <->
  same_double (pitch p) (pitch q) /\ same_double (yaw p) (yaw q) /\
  same_double (roll p) (roll q) /\ same_double (transZ p) (transZ q).
Proof.
rewrite operator_eq_fields. unfold same_double.
now rewrite !F64Equiv.eqb_true_iff.
Qed.

(** X4: [closeTo] is monotone in both tolerances: a pair that is close stays
    close when either tolerance is enlarged. *)
Theorem closeTo_monotone (p q : DOFPose) (rotEpsilon transZEpsilon rotEpsilon' transZEpsilon' : float) :
  closeTo p q rotEpsilon transZEpsilon = true ->
  (rotEpsilon <=? rotEpsilon') = true ->
  (transZEpsilon <=? transZEpsilon') = true ->
  closeTo p q rotEpsilon' transZEpsilon' = true.
Proof.
rewrite !closeTo_unfold, !andb_true_iff. intros [Hr Ht] Hr' Ht'.
split; eapply F64.ltb_leb_trans; eassumption.
Qed.

Lemma closeTo_monotone_witness :
  let p := mkDOFPose 0 0 0 0 in
  let q := mkDOFPose 3 4 0 0.5 in
  closeTo p q 5.0001 1 = true /\ closeTo p q 6 infinity = true.
Proof.
intros p q. split; [reflexivity |].
apply (closeTo_monotone p q 5.0001 1 6 infinity); reflexivity.
Defined.

(** X5: [closeTo] can only return true on two poses whose coordinates are
    all finite and with both tolerances above zero: an infinite or NaN
    coordinate, or a tolerance that is NaN, zero or negative, makes it
    false. *)
Theorem closeTo_true_requires (p q : DOFPose) (rotEpsilon transZEpsilon : float) :
  closeTo p q rotEpsilon transZEpsilon = true ->
  all_finite p = true /\ all_finite q = true /\
  gtb rotEpsilon 0 = true /\ gtb transZEpsilon 0 = true.
Proof.
rewrite closeTo_unfold, andb_true_iff. intros [Hr Ht].
assert (F : (is_finite (pitch p - pitch q) && is_finite (yaw p - yaw q) &&
             is_finite (roll p - roll q)) && is_finite (transZ p - transZ q) = true).
{ apply andb_true_iff. split.
  - apply not_false_is_true. intros F.
    rewrite rotDist_norm3 in Hr.
    now rewrite (F64Top.norm3_not_finite _ _ _ rotEpsilon F) in Hr.
  - apply not_false_is_true. intros F. unfold transZDist in Ht; cbv zeta in Ht.
    now rewrite (F64Top.abs_not_finite _ transZEpsilon F) in Ht. }
rewrite !andb_true_iff in F. destruct F as [[[F1 F2] F3] F4].
assert (S : forall x y, is_finite (x - y) = true ->
                        is_finite x = true /\ is_finite y = true).
{ intros x y H. apply andb_true_iff. apply not_false_is_true. intros N.
  now rewrite (F64Top.sub_not_finite x y N) in H. }
apply S in F1, F2, F3, F4.
unfold all_finite, gtb. rewrite !andb_true_iff.
repeat split; try tauto.
- exact (F64Top.ltb_positive _ _ (rotDist_ltb_zero p q) Hr).
- exact (F64Top.ltb_positive _ _ (transZDist_ltb_zero p q) Ht).
Qed.

Lemma closeTo_true_requires_witness :
  let p := mkDOFPose 0 0 0 0 in
  let q := mkDOFPose 3 4 0 0.5 in
  closeTo p q 5.0001 1 = true /\ all_finite p = true /\ all_finite q = true.
Proof.
intros p q. split; [reflexivity |].
destruct (closeTo_true_requires p q 5.0001 1) as (H1 & H2 & _); [reflexivity |].
now split.
Defined.

(** X6: [poseInside] returns false as soon as a coordinate of the pose or a
    bound is NaN. *)
Theorem poseInside_nan (b : DOFBoundaries) (p : DOFPose) :
  has_nan p || bounds_have_nan b = true -> poseInside b p = false.
Proof.
intros H. apply not_true_is_false. rewrite poseInside_fields.
intros ((H1 & H2) & (H3 & H4) & (H5 & H6) & (H7 & H8)).
apply F64Equiv.leb_not_nan in H1, H2, H3, H4, H5, H6, H7, H8.
unfold has_nan, bounds_have_nan in H.
destruct H1 as [A1 B1], H2 as [_ C1], H3 as [A2 B2], H4 as [_ C2],
  H5 as [A3 B3], H6 as [_ C3], H7 as [A4 B4], H8 as [_ C4].
rewrite A1, A2, A3, A4, B1, B2, B3, B4, C1, C2, C3, C4 in H.
discriminate.
Qed.

Lemma poseInside_nan_witness :
  let b := {| pitchMax := infinity; pitchMin := neg_infinity;
              yawMax := infinity; yawMin := neg_infinity;
              rollMax := infinity; rollMin := neg_infinity;
              transZMax := infinity; transZMin := neg_infinity |} in
  let p := mkDOFPose 0 nan 0 0 in
  has_nan p = true /\ poseInside b p = false.
Proof.
intros b p. split; [reflexivity |].
apply (poseInside_nan b p). reflexivity.
Defined.

(** X7: [poseInside] is monotone in the boundaries: a pose inside [b] is
    inside every [b'] whose minima are not above and whose maxima are not
    below those of [b]. *)
Theorem poseInside_widen (b b' : DOFBoundaries) (p : DOFPose) :
  poseInside b p = true ->
  (pitchMin b' <=? pitchMin b) = true -> (pitchMax b <=? pitchMax b') = true ->
  (yawMin b' <=? yawMin b) = true -> (yawMax b <=? yawMax b') = true ->
  (rollMin b' <=? rollMin b) = true -> (rollMax b <=? rollMax b') = true ->
  (transZMin b' <=? transZMin b) = true -> (transZMax b <=? transZMax b') = true ->
  poseInside b' p = true.
Proof.
rewrite !poseInside_fields.
intros ((H1 & H2) & (H3 & H4) & (H5 & H6) & (H7 & H8)) L1 U1 L2 U2 L3 U3 L4 U4.
repeat split; eapply F64.leb_trans; eassumption.
Qed.

Lemma poseInside_widen_witness :
  let b := {| pitchMax := 1; pitchMin := -1; yawMax := 1; yawMin := -1;
              rollMax := 1; rollMin := -1; transZMax := 1; transZMin := 0 |} in
  let b' := {| pitchMax := 2; pitchMin := -2; yawMax := 1; yawMin := -1;
               rollMax := infinity; rollMin := -1; transZMax := 1; transZMin := -0 |} in
  let p := mkDOFPose 1 (-1) 0.5 0 in
  poseInside b p = true /\ poseInside b' p = true.
Proof.
intros b b' p. split; [reflexivity |].
apply (poseInside_widen b b' p); reflexivity.
Defined.

(** X8: boundaries whose minimum and maximum on every axis are the
    coordinates of a pose [q] contain exactly the poses that [operator==]
    finds equal to [q]. *)
Theorem poseInside_point (q p : DOFPose) :
  poseInside {| pitchMax := pitch q; pitchMin := pitch q;
                yawMax := yaw q; yawMin := yaw q;
                rollMax := roll q; rollMin := roll q;
                transZMax := transZ q; transZMin := transZ q |} p =
  operator_eq p q.
Proof.
apply eq_true_iff_eq. rewrite poseInside_fields, operator_eq_fields; cbn.
now rewrite !leb_pair_eqb.
Qed.

(** X9: boundaries contain at least one pose exactly when on every axis the
    minimum is at most the maximum. *)
Theorem poseInside_nonempty_iff (b : DOFBoundaries) :
  (exists p : DOFPose, poseInside b p = true) <->
  (pitchMin b <=? pitchMax b) = true /\ (yawMin b <=? yawMax b) = true /\
  (rollMin b <=? rollMax b) = true /\ (transZMin b <=? transZMax b) = true.
Proof.
split.
- intros [p H]. apply poseInside_fields in H.
  destruct H as ((H1 & H2) & (H3 & H4) & (H5 & H6) & (H7 & H8)).
  repeat split; eapply F64.leb_trans; eassumption.
- intros (H1 & H2 & H3 & H4).
  exists (mkDOFPose (pitchMin b) (yawMin b) (rollMin b) (transZMin b)).
  apply poseInside_fields; cbn.
  rewrite !F64Equiv.leb_refl.
  destruct (F64Equiv.leb_not_nan _ _ H1) as [-> _].
  destruct (F64Equiv.leb_not_nan _ _ H2) as [-> _].
  destruct (F64Equiv.leb_not_nan _ _ H3) as [-> _].
  destruct (F64Equiv.leb_not_nan _ _ H4) as [-> _].
  tauto.
Qed.

(** X10: [poseInside] gives the same answer on two poses that [operator==]
    finds equal. *)
Theorem poseInside_operator_eq (b : DOFBoundaries) (p q : DOFPose) :
  operator_eq p q = true -> poseInside b p = poseInside b q.
Proof.
rewrite operator_eq_fields. intros (E1 & E2 & E3 & E4).
unfold poseInside, geb.
rewrite (F64Equiv.leb_eqb_r _ _ _ E1), (F64Equiv.leb_eqb_l _ _ (pitchMax b) E1).
rewrite (F64Equiv.leb_eqb_r _ _ _ E2), (F64Equiv.leb_eqb_l _ _ (yawMax b) E2).
rewrite (F64Equiv.leb_eqb_r _ _ _ E3), (F64Equiv.leb_eqb_l _ _ (rollMax b) E3).
rewrite (F64Equiv.leb_eqb_r _ _ _ E4), (F64Equiv.leb_eqb_l _ _ (transZMax b) E4).
reflexivity.
Qed.

Lemma poseInside_operator_eq_witness :
  let b := {| pitchMax := 1; pitchMin := 0; yawMax := 0; yawMin := 0;
              rollMax := 0; rollMin := 0; transZMax := 0; transZMin := 0 |} in
  let p := mkDOFPose 0 0 0 0 in
  let q := mkDOFPose (-0) (-0) 0 0 in
  operator_eq p q = true /\ poseInside b p = poseInside b q.
Proof.
intros b p q. split; [reflexivity |].
apply (poseInside_operator_eq b p q). reflexivity.
Defined.

(** X11: [closeTo] gives the same answer when either pose is replaced by one
    that [operator==] finds equal to it. *)
Theorem closeTo_operator_eq (p p' q q' : DOFPose) (rotEpsilon transZEpsilon : float) :
  operator_eq p p' = true -> operator_eq q q' = true ->
  closeTo p q rotEpsilon transZEpsilon = closeTo p' q' rotEpsilon transZEpsilon.
Proof.
rewrite !operator_eq_fields. intros (P1 & P2 & P3 & P4) (Q1 & Q2 & Q3 & Q4).
unfold closeTo; cbv zeta.
rewrite (F64Equiv.sqr_sub_eqb _ _ _ _ P1 Q1), (F64Equiv.sqr_sub_eqb _ _ _ _ P2 Q2),
  (F64Equiv.sqr_sub_eqb _ _ _ _ P3 Q3), (F64Equiv.abs_sub_eqb _ _ _ _ P4 Q4).
reflexivity.
Qed.

Lemma closeTo_operator_eq_witness :
  let p := mkDOFPose 0 1 2 0 in
  let p' := mkDOFPose (-0) 1 2 (-0) in
  let q := mkDOFPose 0 1 2.5 0 in
  operator_eq p p' = true /\ operator_eq q q = true /\
  closeTo p q 1 1 = closeTo p' q 1 1.
Proof.
intros p p' q. split; [reflexivity |]. split; [reflexivity |].
apply (closeTo_operator_eq p p' q q 1 1); reflexivity.
Defined.

(** X12: what [closeTo] returns on a pose and itself, and on two poses that
    [operator==] finds equal: true exactly when every coordinate is finite
    and both tolerances are above zero. *)
Theorem closeTo_on_equal_poses :
  (forall (p : DOFPose) (rotEpsilon transZEpsilon : float),
     closeTo p p rotEpsilon transZEpsilon =
     all_finite p && (gtb rotEpsilon 0 && gtb transZEpsilon 0)) /\
  (forall (p q : DOFPose) (rotEpsilon transZEpsilon : float),
     operator_eq p q = true ->
     closeTo p q rotEpsilon transZEpsilon =
     all_finite p && (gtb rotEpsilon 0 && gtb transZEpsilon 0)).
Proof. split; [exact closeTo_self | exact closeTo_of_operator_eq]. Qed.

Lemma closeTo_on_equal_poses_witness :
  let p := mkDOFPose 0 1 neg_infinity 3 in
  let q := mkDOFPose (-0) 1 neg_infinity 3 in
  operator_eq p q = true /\ closeTo p q 1 1 = false.
Proof.
intros p q. split; [reflexivity |].
now rewrite (proj2 closeTo_on_equal_poses p q 1 1).
Defined.

(** X13: when the rendering of a double never contains a space, the string
    of [toString] determines the rendering of each of the four fields. *)
Theorem toString_injective (double_to_string : float -> string) (p q : DOFPose) :
  (forall d : float, no_space (double_to_string d) = true) ->
  toString double_to_string p = toString double_to_string q ->
  double_to_string (pitch p) = double_to_string (pitch q) /\
  double_to_string (yaw p) = double_to_string (yaw q) /\
  double_to_string (roll p) = double_to_string (roll q) /\
  double_to_string (transZ p) = double_to_string (transZ q).
Proof.
intros Hf E.
unfold toString, str, put_double, put_string in E; cbv zeta in E.
rewrite !string_append_assoc in E. cbn in E.
injection E as E.
apply split_at_space in E; trivial. destruct E as [E1 E].
injection E as E.
apply split_at_space in E; trivial. destruct E as [E2 E].
injection E as E.
apply split_at_space in E; trivial. destruct E as [E3 E].
injection E as E.
auto.
Qed.

Lemma toString_injective_witness :
  let f := fun d : float => if d <? 0 then "-"%string else "+"%string in
  let p := mkDOFPose 1 2 3 4 in
  let q := mkDOFPose 5 6 7 8 in
  toString f p = toString f q /\ f (pitch p) = f (pitch q).
Proof.
intros f p q. split; [reflexivity |].
apply (toString_injective f p q).
- intros d. unfold f. now destruct (d <? 0).
- reflexivity.
Defined.

(** X14: boundaries whose eight bounds are finite contain only poses whose
    coordinates are all finite. *)
Theorem poseInside_finite (b : DOFBoundaries) (p : DOFPose) :
  bounds_finite b = true -> poseInside b p = true -> all_finite p = true.
Proof.
unfold bounds_finite. rewrite !andb_true_iff, poseInside_fields, all_finite_fields.
intros (((((((B1 & B2) & B3) & B4) & B5) & B6) & B7) & B8).
intros ((H1 & H2) & (H3 & H4) & (H5 & H6) & (H7 & H8)).
repeat split.
- exact (F64Top.leb_between_finite _ _ _ B2 B1 H1 H2).
- exact (F64Top.leb_between_finite _ _ _ B4 B3 H3 H4).
- exact (F64Top.leb_between_finite _ _ _ B6 B5 H5 H6).
- exact (F64Top.leb_between_finite _ _ _ B8 B7 H7 H8).
Qed.

Lemma poseInside_finite_witness :
  let b := {| pitchMax := 1; pitchMin := -1; yawMax := 1; yawMin := -1;
              rollMax := 1; rollMin := -1; transZMax := 1; transZMin := 0 |} in
  let p := mkDOFPose 1 (-1) 0.5 0 in
  bounds_finite b = true /\ poseInside b p = true /\ all_finite p = true.
Proof.
intros b p. split; [reflexivity |]. split; [reflexivity |].
apply (poseInside_finite b p); reflexivity.
Defined.

(** X15: default-constructed boundaries contain exactly the poses that
    [operator==] finds equal to the default-constructed pose: every
    coordinate a zero. *)
Theorem poseInside_default (p : DOFPose) :
  poseInside DOFBoundaries_default p = operator_eq p DOFPose_default.
Proof.
apply eq_true_iff_eq. rewrite poseInside_fields, operator_eq_fields; cbn.
now rewrite !leb_pair_eqb.
Qed.
